(** * MonitorModel: the observable monitor registry of HwMonitorAlignment

    A shallow embedding of [hwmonitor/monitors/monitor_model.py] and the
    properties of its operations.

    - Python integers are unbounded: coordinates and sizes are [Z].
    - [self.__monitors] is a Python [dict] keyed by [str].  A dict iterates in
      insertion order, and three of the queries depend on that order, so the
      dict is an association list, oldest entry first, without repeated keys.
    - A method that mutates the model or raises is a computation in a small
      state-and-exception monad over the model; a raised exception leaves the
      model as it was when the [raise] was reached.
    - Signals are recorded in a trace, in the order they are emitted.
    - No method of the model writes an attribute of a monitor, so a monitor
      is an immutable record. *)

From Stdlib Require Import List ZArith String Bool Lia Permutation Sorted.
Import ListNotations.
Open Scope string_scope.
Open Scope list_scope.
Open Scope Z_scope.

(** ** Exceptions and results *)

(** The exception classes the module can raise, with their arguments. *)
Inductive exn : Type :=
| ValueError (msg : string)
| KeyError (key : string)
| LookupError (msg : string)
| AttributeError (type_name attr : string).

Inductive Result (A : Type) : Type :=
| Return (a : A)
| Raise (e : exn).
Arguments Return {A} a.
Arguments Raise {A} e.

Definition bindR {A B} (r : Result A) (k : A -> Result B) : Result B :=
  match r with
  | Return a => k a
  | Raise e => Raise e
  end.

Declare Scope result_scope.
Delimit Scope result_scope with result.
Notation "x <~ r ; k" := (bindR r (fun x => k))
  (at level 61, r at next level, right associativity) : result_scope.

(** ** Monitor *)

(** Modelled from the spec: the [Monitor] class of
    [hwmonitor/monitors/monitor.py], imported by [monitor_model.py].  Its
    attributes are the ones the data model lists for a monitor descriptor,
    which are the ones [monitor_model.py] and the widgets read. *)
Record Monitor : Type := mkMonitor {
  device_name : string;
  index : string;
  position_x : Z;
  position_y : Z;
  screen_width : Z;
  screen_height : Z;
  primary : bool
}.

(** The Python objects the model hands around: a [for] over a dict yields its
    keys, which are [str] objects; [dict.get] returns a stored monitor or the
    caller's default, [None] when none is given. *)
Inductive pyobj : Type :=
| PyNone
| PyStr (s : string)
| PyMonitor (m : Monitor).

(** The integer attributes read by the geometric queries. *)
Inductive int_attr : Type := Position_x | Position_y | Screen_width | Screen_height.

Definition attr_name (a : int_attr) : string :=
  match a with
  | Position_x => "position_x"
  | Position_y => "position_y"
  | Screen_width => "screen_width"
  | Screen_height => "screen_height"
  end.

(** [o.attr]: a monitor has the attribute, a [str] or [None] has not, and the
    attribute access raises [AttributeError]. *)
Definition getattr (o : pyobj) (a : int_attr) : Result Z :=
  match o with
  | PyMonitor m =>
      Return match a with
             | Position_x => position_x m
             | Position_y => position_y m
             | Screen_width => screen_width m
             | Screen_height => screen_height m
             end
  | PyStr _ => Raise (AttributeError "str" (attr_name a))
  | PyNone => Raise (AttributeError "NoneType" (attr_name a))
  end.

(** ** Python's dict, keyed by str *)

Module PyDict.
Section Dict.
Context {V : Type}.

Definition t : Type := list (string * V).

Definition keys (d : t) : list string := map fst d.
Definition values (d : t) : list V := map snd d.
Definition items (d : t) : list (string * V) := d.
Definition len (d : t) : Z := Z.of_nat (List.length d).

(** A dict holds a key once. *)
Definition wf (d : t) : Prop := NoDup (keys d).

Fixpoint lookup (k : string) (d : t) : option V :=
  match d with
  | [] => None
  | (k', v) :: r => if String.eqb k' k then Some v else lookup k r
  end.

(** [k in d] *)
Definition contains (k : string) (d : t) : bool :=
  match lookup k d with Some _ => true | None => false end.

(** [d[k] = v]: a present key keeps its place and takes the new value, a
    new key goes last. *)
Fixpoint setitem (k : string) (v : V) (d : t) : t :=
  match d with
  | [] => [(k, v)]
  | (k', v') :: r =>
      if String.eqb k' k then (k', v) :: r else (k', v') :: setitem k v r
  end.

Fixpoint delete (k : string) (d : t) : t :=
  match d with
  | [] => []
  | (k', v) :: r => if String.eqb k' k then r else (k', v) :: delete k r
  end.

(** [d.pop(k)]: the value and the dict without the entry, [KeyError(k)] when
    the key is absent. *)
Definition pop (k : string) (d : t) : Result (V * t) :=
  match lookup k d with
  | Some v => Return (v, delete k d)
  | None => Raise (KeyError k)
  end.

(** [d.clear()] *)
Definition clear (d : t) : t := [].
End Dict.
Arguments t V : clear implicits.
End PyDict.

(** [d.get(k, default)] on a dict of monitors. *)
Definition dict_get (k : string) (default : pyobj) (d : PyDict.t Monitor) : pyobj :=
  match PyDict.lookup k d with
  | Some m => PyMonitor m
  | None => default
  end.

(** ** Python's sorted(iterable, key=...) *)

(** [sorted] is stable and compares keys with [<] only.  A stable sort has one
    possible output (lemma [stable_sort_unique] below), so the insertion sort
    here returns the list CPython's [sorted] returns. *)
Section Sorted.
Context {A K : Type} (key : A -> K) (lt : K -> K -> bool).

Fixpoint insert (x : A) (l : list A) : list A :=
  match l with
  | [] => [x]
  | y :: r => if lt (key y) (key x) then y :: insert x r else x :: y :: r
  end.

Fixpoint sorted (l : list A) : list A :=
  match l with
  | [] => []
  | x :: r => insert x (sorted r)
  end.
End Sorted.

(** [<] on pairs of integers: Python compares tuples lexicographically. *)
Definition tuple_lt (a b : Z * Z) : bool :=
  (fst a <? fst b) || ((fst a =? fst b) && (snd a <? snd b)).

Definition tuple_eqb (a b : Z * Z) : bool :=
  (fst a =? fst b) && (snd a =? snd b).

(** ** Notifications *)

(** The signals of the base class, as the observers receive them. *)
Inductive Notification : Type :=
| ItemAdded (key : string) (value : Monitor)
| ItemRemoved (key : string) (value : Monitor)
| ModelReset.

(** ** The model *)

Module MonitorModel.

(** [self]: the private dict and the trace of the signals emitted so far,
    oldest first. *)
Record t : Type := mk {
  __monitors : PyDict.t Monitor;
  emitted : list Notification
}.

(** A method body: from the model to a result and the model afterwards. *)
Definition M (A : Type) : Type := t -> Result A * t.

Definition ret {A} (a : A) : M A := fun self => (Return a, self).
Definition raise {A} (e : exn) : M A := fun self => (Raise e, self).
Definition bind {A B} (c : M A) (k : A -> M B) : M B :=
  fun self =>
    match c self with
    | (Return a, self') => k a self'
    | (Raise e, self') => (Raise e, self')
    end.

Declare Scope model_scope.
Delimit Scope model_scope with model.
Notation "x <- c ;; k" := (bind c (fun x => k))
  (at level 61, c at next level, right associativity) : model_scope.
Notation "c ;; k" := (bind c (fun _ => k))
  (at level 61, right associativity) : model_scope.
Local Open Scope model_scope.

Definition get_monitors : M (PyDict.t Monitor) :=
  fun self => (Return (__monitors self), self).
Definition set_monitors (d : PyDict.t Monitor) : M unit :=
  fun self => (Return tt, mk d (emitted self)).

(** Modelled from the spec: the base class [Model] of
    [hwmonitor/core/model.py] with its signals [item_added], [item_removed]
    and [model_reset].  [signal.emit(...)] notifies the observers
    synchronously, once; here it appends the notification to the trace. *)
Definition emit (n : Notification) : M unit :=
  fun self => (Return tt, mk (__monitors self) (emitted self ++ [n])).

(** [__init__] *)
Definition __init__ : t := mk [] [].

Definition add (monitor : Monitor) : M unit :=
  d <- get_monitors ;;
  if PyDict.contains (device_name monitor) d
  then raise (ValueError "Monitor is already in the model")
  else
    set_monitors (PyDict.setitem (device_name monitor) monitor d) ;;
    emit (ItemAdded (device_name monitor) monitor).

Definition pop (device_name : string) : M Monitor :=
  d <- get_monitors ;;
  match PyDict.pop device_name d with
  | Raise e => raise e
  | Return (monitor, d') =>
      set_monitors d' ;;
      emit (ItemRemoved device_name monitor) ;;
      ret monitor
  end.

Definition remove (monitor : Monitor) : M unit :=
  pop (device_name monitor) ;; ret tt.

Definition get (self : t) (device_name : string) (default : pyobj) : pyobj :=
  dict_get device_name default (__monitors self).

Definition items (self : t) : list (string * Monitor) :=
  PyDict.items (__monitors self).

Definition keys (self : t) : list string :=
  PyDict.keys (__monitors self).

Definition reset : M unit :=
  d <- get_monitors ;;
  set_monitors (PyDict.clear d) ;;
  emit ModelReset.

(** The monitors the generator yields when it is run on [self]. *)
Definition filter (self : t) (operation : Monitor -> bool) : list Monitor :=
  List.filter operation (PyDict.values (__monitors self)).

Definition get_primary_monitor (self : t) : list Monitor :=
  filter self (fun monitor => primary monitor).

Definition get_monitor_order (self : t) : list Monitor :=
  sorted (fun monitor => (position_x monitor, position_y monitor)) tuple_lt
         (PyDict.values (__monitors self)).

(** [a <= x <= b and c <= y <= d] of the loop body. *)
Definition includes (monitor : Monitor) (x y : Z) : bool :=
  ((position_x monitor <=? x) && (x <=? position_x monitor + screen_width monitor))
  && ((position_y monitor <=? y) && (y <=? position_y monitor + screen_height monitor)).

Fixpoint get_from_position_loop (l : list Monitor) (x y : Z) : Result Monitor :=
  match l with
  | [] => Raise (LookupError "Requested position is outside of visible virtual screen area")
  | monitor :: r =>
      if includes monitor x y then Return monitor
      else get_from_position_loop r x y
  end.

Definition get_from_position (self : t) (x y : Z) : Result Monitor :=
  get_from_position_loop (PyDict.values (__monitors self)) x y.

(** The four running bounds of [get_vscreen_size]. *)
Record bounds : Type := mkBounds { min_x : Z; max_x : Z; min_y : Z; max_y : Z }.

(** One pass of the loop body; [monitor] is what the [for] yields. *)
Definition get_vscreen_size_body (monitor : pyobj) (b : bounds) : Result bounds :=
  (px <~ getattr monitor Position_x ;
   let min_x' := Z.min (min_x b) px in
   px <~ getattr monitor Position_x ;
   w <~ getattr monitor Screen_width ;
   let max_x' := Z.max (max_x b) (px + w) in
   py <~ getattr monitor Position_y ;
   let min_y' := Z.min (min_y b) py in
   py <~ getattr monitor Position_y ;
   h <~ getattr monitor Screen_height ;
   let max_y' := Z.max (max_y b) (py + h) in
   Return (mkBounds min_x' max_x' min_y' max_y'))%result.

Fixpoint get_vscreen_size_loop (l : list pyobj) (b : bounds) : Result bounds :=
  match l with
  | [] => Return b
  | monitor :: r =>
      (b' <~ get_vscreen_size_body monitor b ; get_vscreen_size_loop r b')%result
  end.

(** [for monitor in self.__monitors] iterates the dict itself, that is its
    keys. *)
Definition get_vscreen_size (self : t) : Result (Z * Z) :=
  (b <~ get_vscreen_size_loop (map PyStr (PyDict.keys (__monitors self)))
                              (mkBounds 0 0 0 0) ;
   Return (max_x b - min_x b, max_y b - min_y b))%result.

Definition __len__ (self : t) : Z := PyDict.len (__monitors self).

Definition __iter__ (self : t) : list Monitor := PyDict.values (__monitors self).

Definition __contains__ (self : t) (x : string) : bool :=
  PyDict.contains x (__monitors self).

End MonitorModel.

(** ** Calls, runs and the notions the properties are stated with *)

(** A mutating call on the model. *)
Inductive call : Type :=
| Add (monitor : Monitor)
| Remove (monitor : Monitor)
| Pop (device_name : string)
| Reset.

(** The model after a call, whether the call returned or raised. *)
Definition after (c : call) (self : MonitorModel.t) : MonitorModel.t :=
  match c with
  | Add monitor => snd (MonitorModel.add monitor self)
  | Remove monitor => snd (MonitorModel.remove monitor self)
  | Pop device_name => snd (MonitorModel.pop device_name self)
  | Reset => snd (MonitorModel.reset self)
  end.

(** The model after a sequence of calls, first call first. *)
Definition run (cs : list call) (self : MonitorModel.t) : MonitorModel.t :=
  fold_left (fun s c => after c s) cs self.

(** Every key maps to a monitor that carries the key as its device name. *)
Definition keyed_by_name (self : MonitorModel.t) : Prop :=
  forall k m, In (k, m) (MonitorModel.items self) -> device_name m = k.

(** The closed rectangle of a monitor on the virtual screen. *)
Definition in_rect (m : Monitor) (x y : Z) : Prop :=
  (position_x m <= x <= position_x m + screen_width m) /\
  (position_y m <= y <= position_y m + screen_height m).

(** The sort key of [get_monitor_order] and its order: ascending in x, then
    in y. *)
Definition position (m : Monitor) : Z * Z := (position_x m, position_y m).

Definition position_le (a b : Z * Z) : Prop :=
  fst a < fst b \/ (fst a = fst b /\ snd a <= snd b).

Definition ascending (l : list Monitor) : Prop :=
  StronglySorted (fun a b => position_le (position a) (position b)) l.

(** The monitors of [l] placed at [pos], in the order of [l]. *)
Definition at_position (pos : Z * Z) (l : list Monitor) : list Monitor :=
  List.filter (fun m => tuple_eqb (position m) pos) l.

(** [get_primary_monitor] in the words of the specification: the filter with
    the predicate "the descriptor's primary flag is true". *)
Definition spec_get_primary_monitor (self : MonitorModel.t) : list Monitor :=
  MonitorModel.filter self (fun descriptor => Bool.eqb (primary descriptor) true).

(** ** Outcomes and observers *)

(** Whether a call returns or raises, the value of [pop] set aside. *)
Definition outcome (c : call) (self : MonitorModel.t) : Result unit :=
  match c with
  | Add monitor => fst (MonitorModel.add monitor self)
  | Remove monitor => fst (MonitorModel.remove monitor self)
  | Pop device_name =>
      match fst (MonitorModel.pop device_name self) with
      | Return _ => Return tt
      | Raise e => Raise e
      end
  | Reset => fst (MonitorModel.reset self)
  end.

(** The notification that reports a call: the signal of the method and the
    device name the call was made with. *)
Definition announces (c : call) (n : Notification) : Prop :=
  match c, n with
  | Add monitor, ItemAdded k v => k = device_name monitor /\ v = monitor
  | Remove monitor, ItemRemoved k _ => k = device_name monitor
  | Pop device_name, ItemRemoved k _ => k = device_name
  | Reset, ModelReset => True
  | _, _ => False
  end.

(** An observer that mirrors the model in a dict of its own: one step per
    notification received, and the mirror after a whole trace. *)
Definition observe (mirror : PyDict.t Monitor) (n : Notification) : PyDict.t Monitor :=
  match n with
  | ItemAdded k v => PyDict.setitem k v mirror
  | ItemRemoved k _ => PyDict.delete k mirror
  | ModelReset => PyDict.clear mirror
  end.

Definition replay (trace : list Notification) : PyDict.t Monitor :=
  fold_left observe trace [].

(** The model mirrors are in step with: the trace so far replays to the
    mapping. *)
Definition in_step (self : MonitorModel.t) : Prop :=
  replay (MonitorModel.emitted self) = MonitorModel.__monitors self.

(** No stored monitor but [m] holds the point. *)
Definition only_match (self : MonitorModel.t) (x y : Z) : Prop :=
  forall m m', In m (MonitorModel.__iter__ self) -> In m' (MonitorModel.__iter__ self) ->
               in_rect m x y -> in_rect m' x y -> m = m'.

(** ** Example monitors *)

(** Two monitors side by side, [A = [0,0,100,100]] and [B = [100,0,100,100]]. *)
Definition monA : Monitor := mkMonitor "A" "1" 0 0 100 100 true.
Definition monB : Monitor := mkMonitor "B" "2" 100 0 100 100 false.

(** A second descriptor for the device name of [monA]. *)
Definition monA' : Monitor := mkMonitor "A" "9" 640 480 800 600 false.

(** Monitors at (0,0), (100,0) and (0,50), and a fourth on top of the first. *)
Definition monP : Monitor := mkMonitor "P" "1" 0 0 100 50 true.
Definition monQ : Monitor := mkMonitor "Q" "2" 100 0 100 50 true.
Definition monR : Monitor := mkMonitor "R" "3" 0 50 100 50 false.
Definition monS : Monitor := mkMonitor "S" "4" 0 0 30 30 false.

Definition model_A : MonitorModel.t := run [Add monA] MonitorModel.__init__.
Definition model_AB : MonitorModel.t := run [Add monA; Add monB] MonitorModel.__init__.
Definition model_BR : MonitorModel.t := run [Add monB; Add monR] MonitorModel.__init__.
Definition model_PQR : MonitorModel.t :=
  run [Add monP; Add monQ; Add monR] MonitorModel.__init__.
Definition model_QRP : MonitorModel.t :=
  run [Add monQ; Add monR; Add monP] MonitorModel.__init__.
Definition model_PRQ : MonitorModel.t :=
  run [Add monP; Add monR; Add monQ] MonitorModel.__init__.

(** * Properties *)

(** ** The dict *)

Module PyDictFacts.
Import PyDict.
Section Facts.
Context {V : Type}.
Implicit Types (d : PyDict.t V) (k : string) (v : V).

Lemma lookup_None k d : lookup k d = None <-> ~ In k (keys d).
Proof.
  induction d as [|[k' v'] r IH]; simpl.
  - tauto.
  - destruct (String.eqb_spec k' k) as [->|Hne].
    + split; [discriminate | intros H; exfalso; apply H; now left].
    + rewrite IH. split; [intros H [E|I]; auto | intros H I; apply H; now right].
Qed.

Lemma lookup_Some_In k v d : lookup k d = Some v -> In (k, v) d.
Proof.
  induction d as [|[k' v'] r IH]; simpl; [discriminate|].
  destruct (String.eqb_spec k' k) as [->|Hne].
  - intros [= ->]. now left.
  - intros H. right. auto.
Qed.

Lemma contains_true k d : contains k d = true <-> In k (keys d).
Proof.
  unfold contains. destruct (lookup k d) eqn:E.
  - split; [intros _ | reflexivity].
    apply lookup_Some_In in E. apply (in_map fst) in E. exact E.
  - apply lookup_None in E. split; [discriminate | contradiction].
Qed.

Lemma contains_false k d : contains k d = false <-> ~ In k (keys d).
Proof.
  rewrite <- contains_true. destruct (contains k d); split; congruence.
Qed.

Lemma In_lookup k v d : wf d -> In (k, v) d -> lookup k d = Some v.
Proof.
  unfold wf. induction d as [|[k' v'] r IH]; simpl; [tauto|].
  intros Hnd [E|I].
  - injection E as -> ->. now rewrite String.eqb_refl.
  - inversion Hnd as [|? ? Hnin Hnd']; subst.
    destruct (String.eqb_spec k' k) as [->|Hne].
    + exfalso. apply Hnin. apply (in_map fst) in I. exact I.
    + auto.
Qed.

(** Storing under a new key appends the entry. *)
Lemma setitem_fresh k v d : ~ In k (keys d) -> setitem k v d = d ++ [(k, v)].
Proof.
  induction d as [|[k' v'] r IH]; simpl; [reflexivity|].
  intros H. destruct (String.eqb_spec k' k) as [->|Hne].
  - exfalso. apply H. now left.
  - f_equal. apply IH. intros I. apply H. now right.
Qed.

Lemma lookup_app_fresh k v d : ~ In k (keys d) -> lookup k (d ++ [(k, v)]) = Some v.
Proof.
  induction d as [|[k' v'] r IH]; simpl; intros H.
  - now rewrite String.eqb_refl.
  - destruct (String.eqb_spec k' k) as [->|Hne].
    + exfalso. apply H. now left.
    + apply IH. intros I. apply H. now right.
Qed.

Lemma lookup_app_other k k' v d : k' <> k -> lookup k' (d ++ [(k, v)]) = lookup k' d.
Proof.
  intros Hne. induction d as [|[k0 v0] r IH]; simpl.
  - destruct (String.eqb_spec k k'); congruence.
  - now rewrite IH.
Qed.

Lemma delete_app_fresh k v d : ~ In k (keys d) -> delete k (d ++ [(k, v)]) = d.
Proof.
  induction d as [|[k' v'] r IH]; simpl; intros H.
  - now rewrite String.eqb_refl.
  - destruct (String.eqb_spec k' k) as [->|Hne].
    + exfalso. apply H. now left.
    + f_equal. apply IH. intros I. apply H. now right.
Qed.

(** A present key splits the dict around its entry, and deleting the key
    removes that entry and nothing else. *)
Lemma delete_split k v d :
  lookup k d = Some v ->
  exists l1 l2, d = l1 ++ (k, v) :: l2 /\ delete k d = l1 ++ l2 /\ ~ In k (keys l1).
Proof.
  induction d as [|[k' v'] r IH]; simpl; [discriminate|].
  destruct (String.eqb_spec k' k) as [->|Hne].
  - intros [= ->]. exists [], r. simpl. tauto.
  - intros H. destruct (IH H) as (l1 & l2 & -> & Hd & Hn).
    exists ((k', v') :: l1), l2. simpl. rewrite Hd. repeat split.
    intros [E|I]; auto.
Qed.

Lemma wf_app_inv l1 l2 k v :
  wf (l1 ++ (k, v) :: l2) -> wf (l1 ++ l2) /\ ~ In k (keys (l1 ++ l2)).
Proof.
  unfold wf, keys. rewrite !map_app. simpl. intros H. split.
  - eapply NoDup_remove_1; eauto.
  - eapply NoDup_remove_2; eauto.
Qed.

Lemma wf_app_fresh k v d : wf d -> ~ In k (keys d) -> wf (d ++ [(k, v)]).
Proof.
  unfold wf, keys. rewrite map_app. simpl. intros Hd Hk.
  apply NoDup_app; auto.
  - constructor; [tauto | constructor].
  - intros x Hx [<-|[]]. contradiction.
Qed.

Lemma delete_absent k d : ~ In k (keys d) -> delete k d = d.
Proof.
  induction d as [|[k' v'] r IH]; simpl; [reflexivity|].
  intros H. destruct (String.eqb_spec k' k) as [->|Hne].
  - exfalso. apply H. now left.
  - f_equal. apply IH. intros I. apply H. now right.
Qed.

Lemma In_delete kv k d : In kv (delete k d) -> In kv d.
Proof.
  induction d as [|[k' v'] r IH]; simpl; [tauto|].
  destruct (String.eqb k' k); simpl; intuition.
Qed.

End Facts.
End PyDictFacts.

(** ** Mutators *)

Import PyDict PyDictFacts.

Lemma keys_eq (self : MonitorModel.t) :
  MonitorModel.keys self = PyDict.keys (MonitorModel.__monitors self).
Proof. reflexivity. Qed.

(** What [add] computes, by presence of the name. *)
Lemma add_present self d :
  In (device_name d) (MonitorModel.keys self) ->
  MonitorModel.add d self = (Raise (ValueError "Monitor is already in the model"), self).
Proof.
  intros H. apply contains_true in H.
  unfold MonitorModel.add, MonitorModel.bind, MonitorModel.get_monitors. simpl.
  now rewrite H.
Qed.

Lemma add_fresh self d :
  ~ In (device_name d) (MonitorModel.keys self) ->
  MonitorModel.add d self =
    (Return tt,
     MonitorModel.mk (MonitorModel.__monitors self ++ [(device_name d, d)])
                     (MonitorModel.emitted self ++ [ItemAdded (device_name d) d])).
Proof.
  intros H. pose proof H as Hc. apply contains_false in Hc.
  unfold MonitorModel.add, MonitorModel.bind, MonitorModel.get_monitors. simpl.
  rewrite Hc. simpl. unfold MonitorModel.emit. simpl.
  now rewrite setitem_fresh.
Qed.

Lemma pop_absent self n :
  ~ In n (MonitorModel.keys self) ->
  MonitorModel.pop n self = (Raise (KeyError n), self).
Proof.
  intros H. apply lookup_None in H.
  unfold MonitorModel.pop, MonitorModel.bind, MonitorModel.get_monitors, PyDict.pop.
  simpl. now rewrite H.
Qed.

Lemma pop_present self n m :
  lookup n (MonitorModel.__monitors self) = Some m ->
  MonitorModel.pop n self =
    (Return m,
     MonitorModel.mk (delete n (MonitorModel.__monitors self))
                     (MonitorModel.emitted self ++ [ItemRemoved n m])).
Proof.
  intros H.
  unfold MonitorModel.pop, MonitorModel.bind, MonitorModel.get_monitors, PyDict.pop.
  simpl. now rewrite H.
Qed.

Lemma remove_pop self d :
  MonitorModel.remove d self =
    match MonitorModel.pop (device_name d) self with
    | (Return _, self') => (Return tt, self')
    | (Raise e, self') => (Raise e, self')
    end.
Proof. reflexivity. Qed.

Lemma In_keys_lookup {V} k (d : PyDict.t V) :
  In k (keys d) -> exists v, lookup k d = Some v.
Proof.
  intros H. destruct (lookup k d) eqn:E; [eauto|].
  apply lookup_None in E. contradiction.
Qed.

(** C1. Whatever the registry and the descriptor [d]: when [d.device_name] is
    already a key, [add(d)] raises [ValueError] (the specification's
    DuplicateKeyError) leaving the mapping and the notification trace as they
    were; when it is absent, [add(d)] returns, the mapping is the old one with
    the entry [(d.device_name, d)] inserted (last), every other key is
    untouched, and the trace grows by exactly the one notification
    [ItemAdded(d.device_name, d)]; a second [add] under the same name then
    raises and changes nothing. *)
Theorem add_duplicate_or_insert (self : MonitorModel.t) (d : Monitor) :
  (In (device_name d) (MonitorModel.keys self) ->
     MonitorModel.add d self =
       (Raise (ValueError "Monitor is already in the model"), self))
  /\
  (~ In (device_name d) (MonitorModel.keys self) ->
     exists self',
       MonitorModel.add d self = (Return tt, self') /\
       MonitorModel.__monitors self' =
         MonitorModel.__monitors self ++ [(device_name d, d)] /\
       lookup (device_name d) (MonitorModel.__monitors self') = Some d /\
       (forall k, k <> device_name d ->
          lookup k (MonitorModel.__monitors self') =
          lookup k (MonitorModel.__monitors self)) /\
       MonitorModel.emitted self' =
         MonitorModel.emitted self ++ [ItemAdded (device_name d) d] /\
       (forall d', device_name d' = device_name d ->
          MonitorModel.add d' self' =
            (Raise (ValueError "Monitor is already in the model"), self'))).
Proof.
  split.
  - apply add_present.
  - intros H. eexists. split; [apply add_fresh; exact H|]. simpl.
    repeat split.
    + apply lookup_app_fresh. exact H.
    + intros k Hk. apply lookup_app_other. exact Hk.
    + intros d' E. apply add_present. rewrite E, keys_eq. simpl.
      unfold keys. rewrite map_app. apply in_or_app. right. now left.
Qed.

Lemma add_duplicate_or_insert_witness :
  MonitorModel.add monA' model_A =
    (Raise (ValueError "Monitor is already in the model"), model_A)
  /\ exists self',
       MonitorModel.add monB model_A = (Return tt, self') /\
       MonitorModel.__monitors self' = [("A", monA); ("B", monB)] /\
       MonitorModel.emitted self' = [ItemAdded "A" monA; ItemAdded "B" monB].
Proof.
  split.
  - apply (proj1 (add_duplicate_or_insert model_A monA')). simpl. now left.
  - destruct (proj2 (add_duplicate_or_insert model_A monB)) as (s & H1 & H2 & _ & _ & H3 & _).
    + simpl. intros [H|[]]. discriminate H.
    + exists s. repeat split; assumption.
Defined.

(** C5. Whatever the registry and the name [n]: when [n] is absent, [pop(n)],
    and so [remove] of any descriptor named [n], raises [KeyError] (the
    specification's NotFoundError) leaving the mapping and the trace as they
    were; when [n] is present with descriptor [m], [pop(n)] returns [m], the
    mapping loses the entry [(n, m)] and no other, keeping the order of the
    rest, [n] is no longer a key, and the trace grows by exactly the one
    notification [ItemRemoved(n, m)]. *)
Theorem pop_absent_or_removed (self : MonitorModel.t) (n : string) :
  wf (MonitorModel.__monitors self) ->
  (~ In n (MonitorModel.keys self) ->
     MonitorModel.pop n self = (Raise (KeyError n), self) /\
     forall d, device_name d = n ->
       MonitorModel.remove d self = (Raise (KeyError n), self))
  /\
  (In n (MonitorModel.keys self) ->
     exists m l1 l2 self',
       MonitorModel.__monitors self = l1 ++ (n, m) :: l2 /\
       MonitorModel.pop n self = (Return m, self') /\
       MonitorModel.__monitors self' = l1 ++ l2 /\
       ~ In n (MonitorModel.keys self') /\
       MonitorModel.emitted self' = MonitorModel.emitted self ++ [ItemRemoved n m]).
Proof.
  intros Hwf. split.
  - intros H. split; [now apply pop_absent|].
    intros d <-. rewrite remove_pop, pop_absent; auto.
  - intros H. apply In_keys_lookup in H. destruct H as [m Hm].
    destruct (delete_split _ _ _ Hm) as (l1 & l2 & Hd & Hdel & _).
    exists m, l1, l2. eexists. split; [exact Hd|].
    split; [apply pop_present; exact Hm|]. simpl.
    rewrite Hd in Hwf. apply wf_app_inv in Hwf.
    rewrite keys_eq. simpl. rewrite Hdel. tauto.
Qed.

Lemma pop_absent_or_removed_witness :
  (MonitorModel.pop "C" model_AB = (Raise (KeyError "C"), model_AB) /\
   forall d, device_name d = "C" ->
     MonitorModel.remove d model_AB = (Raise (KeyError "C"), model_AB))
  /\
  exists m l1 l2 self',
    MonitorModel.__monitors model_AB = l1 ++ ("A", m) :: l2 /\
    MonitorModel.pop "A" model_AB = (Return m, self') /\
    MonitorModel.__monitors self' = l1 ++ l2 /\
    ~ In "A" (MonitorModel.keys self') /\
    MonitorModel.emitted self' = MonitorModel.emitted model_AB ++ [ItemRemoved "A" m].
Proof.
  assert (Hwf : wf (MonitorModel.__monitors model_AB)).
  { simpl. repeat constructor; simpl; intuition discriminate. }
  split.
  - apply (proj1 (pop_absent_or_removed model_AB "C" Hwf)).
    simpl. intuition discriminate.
  - apply (proj2 (pop_absent_or_removed model_AB "A" Hwf)).
    simpl. now left.
Defined.

(** C6. Whatever the registry, [reset()] returns, the registry is empty
    afterwards ([len] is 0), and the trace grows by exactly the one
    notification [ModelReset]: no [ItemRemoved] is emitted, whatever the
    number of entries before, zero included. *)
Theorem reset_clears_and_notifies_once (self : MonitorModel.t) :
  exists self',
    MonitorModel.reset self = (Return tt, self') /\
    MonitorModel.__len__ self' = 0 /\
    MonitorModel.__monitors self' = [] /\
    MonitorModel.emitted self' = MonitorModel.emitted self ++ [ModelReset] /\
    (forall k m, In (ItemRemoved k m) (MonitorModel.emitted self') ->
                 In (ItemRemoved k m) (MonitorModel.emitted self)).
Proof.
  eexists. split; [reflexivity|]. simpl. repeat split.
  intros k m H. apply in_app_or in H. destruct H as [H|[H|[]]]; [exact H | discriminate H].
Qed.

(** C7. Round trip: when [d.device_name] is not yet a key, [add(d)] returns
    and then [get(d.device_name)] is [d], whatever the default; a following
    [pop(d.device_name)] returns [d], and after it [get(d.device_name, default)]
    is the default given.  [get] is total: for every name and default it
    is the stored monitor when the name is a key and the default when not. *)
Theorem add_get_pop_get (self : MonitorModel.t) (d : Monitor) (default : pyobj) :
  ~ In (device_name d) (MonitorModel.keys self) ->
  (exists s1 s2,
     MonitorModel.add d self = (Return tt, s1) /\
     (forall dflt, MonitorModel.get s1 (device_name d) dflt = PyMonitor d) /\
     MonitorModel.pop (device_name d) s1 = (Return d, s2) /\
     MonitorModel.get s2 (device_name d) default = default)
  /\
  (forall (s : MonitorModel.t) (name : string) (dflt : pyobj),
     (exists m, In (name, m) (MonitorModel.items s) /\
                MonitorModel.get s name dflt = PyMonitor m)
     \/ (~ In name (MonitorModel.keys s) /\ MonitorModel.get s name dflt = dflt)).
Proof.
  intros H. split.
  - do 2 eexists. split; [apply add_fresh; exact H|].
    assert (Hl : lookup (device_name d)
                   (MonitorModel.__monitors self ++ [(device_name d, d)]) = Some d)
      by (apply lookup_app_fresh; exact H).
    split; [|split].
    + intros dflt. unfold MonitorModel.get, dict_get. simpl. now rewrite Hl.
    + apply pop_present. exact Hl.
    + unfold MonitorModel.get, dict_get. simpl.
      rewrite delete_app_fresh by exact H.
      apply lookup_None in H. now rewrite H.
  - intros s name dflt. unfold MonitorModel.get, dict_get.
    destruct (lookup name (MonitorModel.__monitors s)) as [m|] eqn:E.
    + left. exists m. split; [|reflexivity]. apply lookup_Some_In. exact E.
    + right. split; [|reflexivity]. apply lookup_None. exact E.
Qed.

Lemma add_get_pop_get_witness :
  exists s1 s2,
    MonitorModel.add monB model_A = (Return tt, s1) /\
    (forall dflt, MonitorModel.get s1 "B" dflt = PyMonitor monB) /\
    MonitorModel.pop "B" s1 = (Return monB, s2) /\
    MonitorModel.get s2 "B" (PyStr "none") = PyStr "none".
Proof.
  refine (proj1 (add_get_pop_get model_A monB (PyStr "none") _)).
  simpl. intros [H|[]]. discriminate H.
Defined.

(** ** The key invariant *)

Lemma In_dec_key (self : MonitorModel.t) (n : string) :
  In n (MonitorModel.keys self) \/ ~ In n (MonitorModel.keys self).
Proof.
  destruct (contains n (MonitorModel.__monitors self)) eqn:E.
  - left. now apply contains_true.
  - right. now apply contains_false.
Qed.

Lemma pop_monitors (self : MonitorModel.t) (n : string) :
  MonitorModel.__monitors (snd (MonitorModel.pop n self)) =
  delete n (MonitorModel.__monitors self).
Proof.
  destruct (lookup n (MonitorModel.__monitors self)) as [m|] eqn:E.
  - now rewrite (pop_present _ _ _ E).
  - apply lookup_None in E. rewrite pop_absent by exact E.
    simpl. symmetry. now apply delete_absent.
Qed.

Lemma remove_monitors (self : MonitorModel.t) (d : Monitor) :
  MonitorModel.__monitors (snd (MonitorModel.remove d self)) =
  delete (device_name d) (MonitorModel.__monitors self).
Proof.
  rewrite remove_pop, <- pop_monitors.
  destruct (MonitorModel.pop (device_name d) self) as [[m|e] s]; reflexivity.
Qed.

Lemma after_keyed_by_name (c : call) (self : MonitorModel.t) :
  keyed_by_name self -> keyed_by_name (after c self).
Proof.
  unfold keyed_by_name, MonitorModel.items, items. intros Hinv k m.
  destruct c as [d|d|n|]; simpl.
  - destruct (In_dec_key self (device_name d)) as [Hin|Hnin].
    + rewrite add_present by exact Hin. apply Hinv.
    + rewrite add_fresh by exact Hnin. simpl. intros H.
      apply in_app_or in H. destruct H as [H|[H|[]]]; [now apply Hinv|].
      now injection H as <- <-.
  - rewrite remove_monitors. intros H. apply In_delete in H. now apply Hinv.
  - rewrite pop_monitors. intros H. apply In_delete in H. now apply Hinv.
  - intros [].
Qed.

(** The representation invariant of the dict holds in every state a registry
    reaches. *)
Lemma wf_delete {V} (k : string) (d : PyDict.t V) : wf d -> wf (delete k d).
Proof.
  intros Hwf. destruct (lookup k d) as [v|] eqn:E.
  - destruct (delete_split _ _ _ E) as (l1 & l2 & Hd & -> & _).
    rewrite Hd in Hwf. now apply wf_app_inv in Hwf.
  - apply lookup_None in E. now rewrite delete_absent.
Qed.

Lemma after_wf (c : call) (self : MonitorModel.t) :
  wf (MonitorModel.__monitors self) -> wf (MonitorModel.__monitors (after c self)).
Proof.
  intros Hwf. destruct c as [d|d|n|]; simpl.
  - destruct (In_dec_key self (device_name d)) as [Hin|Hnin].
    + now rewrite add_present.
    + rewrite add_fresh by exact Hnin. simpl. now apply wf_app_fresh.
  - rewrite remove_monitors. now apply wf_delete.
  - rewrite pop_monitors. now apply wf_delete.
  - constructor.
Qed.

Lemma run_wf (cs : list call) (self : MonitorModel.t) :
  wf (MonitorModel.__monitors self) -> wf (MonitorModel.__monitors (run cs self)).
Proof.
  revert self. unfold run.
  induction cs as [|c cs IH]; intros self Hwf; simpl; [exact Hwf|].
  apply IH. now apply after_wf.
Qed.

(** C9. The invariant "a key maps to a descriptor whose [device_name] is that
    key" is kept by every call of [add], [remove], [pop] and [reset], returning
    or raising, and by every sequence of them; it holds on the empty registry,
    hence in every state a registry reaches. *)
Theorem key_invariant_preserved (self : MonitorModel.t) (cs : list call) :
  keyed_by_name self -> keyed_by_name (run cs self).
Proof.
  revert self. unfold run.
  induction cs as [|c cs IH]; intros self Hinv; simpl.
  - exact Hinv.
  - apply IH. now apply after_keyed_by_name.
Qed.

Lemma key_invariant_preserved_witness :
  keyed_by_name MonitorModel.__init__ /\
  keyed_by_name
    (run [Add monA; Add monB; Add monA'; Pop "B"; Remove monA'; Add monR; Reset; Add monP]
         MonitorModel.__init__).
Proof.
  assert (H0 : keyed_by_name MonitorModel.__init__) by (intros k m []).
  split; [exact H0|].
  apply (key_invariant_preserved MonitorModel.__init__ _ H0).
Defined.

(** C10. [remove(d)] looks at [d.device_name] only: when that name is a key,
    storing [stored], [remove(d)] returns, the entry of [stored] leaves the
    mapping and the one notification emitted is
    [ItemRemoved(d.device_name, stored)], carrying the stored descriptor and
    not the argument; and any two descriptors with the same name give the same
    outcome of [remove], on every registry. *)
Theorem remove_by_name_only (self : MonitorModel.t) (d stored : Monitor) :
  wf (MonitorModel.__monitors self) ->
  In (device_name d, stored) (MonitorModel.items self) ->
  (exists l1 l2 self',
     MonitorModel.__monitors self = l1 ++ (device_name d, stored) :: l2 /\
     MonitorModel.remove d self = (Return tt, self') /\
     MonitorModel.__monitors self' = l1 ++ l2 /\
     ~ In (device_name d) (MonitorModel.keys self') /\
     MonitorModel.emitted self' =
       MonitorModel.emitted self ++ [ItemRemoved (device_name d) stored])
  /\
  (forall (s : MonitorModel.t) (d' : Monitor),
     device_name d' = device_name d ->
     MonitorModel.remove d' s = MonitorModel.remove d s).
Proof.
  intros Hwf Hin. unfold MonitorModel.items, items in Hin. split.
  - apply In_lookup in Hin; [|exact Hwf].
    destruct (delete_split _ _ _ Hin) as (l1 & l2 & Hd & Hdel & _).
    exists l1, l2. eexists. split; [exact Hd|].
    split; [rewrite remove_pop, (pop_present _ _ _ Hin); reflexivity|]. simpl.
    rewrite Hd in Hwf. apply wf_app_inv in Hwf.
    rewrite keys_eq. simpl. rewrite Hdel. tauto.
  - intros s d' E. rewrite !remove_pop, E. reflexivity.
Qed.

Lemma remove_by_name_only_witness :
  exists l1 l2 self',
    MonitorModel.__monitors model_AB = l1 ++ ("A", monA) :: l2 /\
    MonitorModel.remove monA' model_AB = (Return tt, self') /\
    MonitorModel.__monitors self' = l1 ++ l2 /\
    ~ In "A" (MonitorModel.keys self') /\
    MonitorModel.emitted self' = MonitorModel.emitted model_AB ++ [ItemRemoved "A" monA].
Proof.
  refine (proj1 (remove_by_name_only model_AB monA' monA _ _)).
  - simpl. repeat constructor; simpl; intuition discriminate.
  - simpl. now left.
Defined.

(** ** Spatial lookup *)

Lemma includes_in_rect (m : Monitor) (x y : Z) :
  MonitorModel.includes m x y = true <-> in_rect m x y.
Proof.
  unfold MonitorModel.includes, in_rect.
  rewrite !andb_true_iff, !Z.leb_le. tauto.
Qed.

Lemma includes_not_in_rect (m : Monitor) (x y : Z) :
  MonitorModel.includes m x y = false <-> ~ in_rect m x y.
Proof.
  rewrite <- includes_in_rect.
  destruct (MonitorModel.includes m x y); split; congruence.
Qed.

Lemma get_from_position_loop_Return (l : list Monitor) (x y : Z) (m : Monitor) :
  MonitorModel.get_from_position_loop l x y = Return m <->
  exists l1 l2, l = l1 ++ m :: l2 /\ in_rect m x y /\
                forall m', In m' l1 -> ~ in_rect m' x y.
Proof.
  induction l as [|a r IH]; simpl.
  - split; [discriminate|]. intros (l1 & l2 & H & _). now destruct l1.
  - destruct (MonitorModel.includes a x y) eqn:E.
    + split.
      * intros [= ->]. exists [], r. apply includes_in_rect in E. simpl. tauto.
      * intros (l1 & l2 & H & Hin & Hfirst). destruct l1 as [|b l1]; simpl in H.
        -- now injection H as ->.
        -- injection H as -> _. exfalso.
           apply (Hfirst b); [now left | now apply includes_in_rect].
    + rewrite IH. split.
      * intros (l1 & l2 & -> & Hin & Hfirst). exists (a :: l1), l2.
        split; [reflexivity|]. split; [exact Hin|].
        intros m' [<-|H]; [now apply includes_not_in_rect | now apply Hfirst].
      * intros (l1 & l2 & H & Hin & Hfirst). destruct l1 as [|b l1]; simpl in H.
        -- injection H as -> _. apply includes_in_rect in Hin. congruence.
        -- injection H as _ ->. exists l1, l2. split; [reflexivity|].
           split; [exact Hin|]. intros m' H. apply Hfirst. now right.
Qed.

Lemma get_from_position_loop_Raise (l : list Monitor) (x y : Z) (e : exn) :
  MonitorModel.get_from_position_loop l x y = Raise e <->
  e = LookupError "Requested position is outside of visible virtual screen area" /\
  forall m, In m l -> ~ in_rect m x y.
Proof.
  induction l as [|a r IH]; simpl.
  - split.
    + intros [= <-]. split; [reflexivity | intros m []].
    + intros [-> _]. reflexivity.
  - destruct (MonitorModel.includes a x y) eqn:E.
    + split; [discriminate|]. intros [_ H]. exfalso.
      apply (H a); [now left | now apply includes_in_rect].
    + rewrite IH. split; intros [He H]; (split; [exact He|]).
      * intros m [<-|Hm]; [now apply includes_not_in_rect | now apply H].
      * intros m Hm. apply H. now right.
Qed.

(** C3. Whatever the registry and the point: [get_from_position(x, y)] returns
    [m] exactly when [m] is the first descriptor, in the registry's iteration
    (insertion) order, whose closed rectangle
    [[position_x, position_x+screen_width] x [position_y, position_y+screen_height]]
    holds the point, the four edges included; it raises exactly when no stored
    rectangle holds the point, and what it raises is [LookupError] (the
    specification's OutOfBoundsError).  With [A=[0,0,100,100]] and
    [B=[100,0,100,100]], (50,50) gives [A], (150,50) gives [B], the shared edge
    point (100,50) gives [A], the first of the two, and (250,50) raises. *)
Theorem get_from_position_first_match (self : MonitorModel.t) (x y : Z) :
  (forall m,
     MonitorModel.get_from_position self x y = Return m <->
     exists l1 l2,
       MonitorModel.__iter__ self = l1 ++ m :: l2 /\ in_rect m x y /\
       forall m', In m' l1 -> ~ in_rect m' x y)
  /\
  ((exists e, MonitorModel.get_from_position self x y = Raise e) <->
   (forall m, In m (MonitorModel.__iter__ self) -> ~ in_rect m x y))
  /\
  (forall e, MonitorModel.get_from_position self x y = Raise e ->
     e = LookupError "Requested position is outside of visible virtual screen area")
  /\
  (MonitorModel.get_from_position model_AB 50 50 = Return monA /\
   MonitorModel.get_from_position model_AB 150 50 = Return monB /\
   MonitorModel.get_from_position model_AB 100 50 = Return monA /\
   MonitorModel.get_from_position model_AB 250 50 =
     Raise (LookupError "Requested position is outside of visible virtual screen area")).
Proof.
  unfold MonitorModel.get_from_position, MonitorModel.__iter__.
  split; [|split; [|split]].
  - intros m. apply get_from_position_loop_Return.
  - split.
    + intros [e He]. now apply get_from_position_loop_Raise in He.
    + intros H. eexists. apply get_from_position_loop_Raise. split; [reflexivity | exact H].
  - intros e He. now apply get_from_position_loop_Raise in He.
  - repeat split.
Qed.

(** ** Primary monitors *)

(** C8. Whatever the registry, [get_primary_monitor()] yields the very
    sequence that [filter] yields for the predicate "[descriptor.primary] is
    true": the stored descriptors with the primary flag set, each once, in
    iteration order.  It is a total function of the registry, and the number
    of descriptors it yields is not constrained: none for a registry without
    a primary monitor, one, or two for a registry with two of them. *)
Theorem get_primary_monitor_is_filter (self : MonitorModel.t) :
  MonitorModel.get_primary_monitor self = spec_get_primary_monitor self
  /\
  MonitorModel.get_primary_monitor self =
    List.filter primary (MonitorModel.__iter__ self)
  /\
  (forall m, In m (MonitorModel.get_primary_monitor self) <->
             In m (MonitorModel.__iter__ self) /\ primary m = true)
  /\
  (MonitorModel.get_primary_monitor model_BR = [] /\
   MonitorModel.get_primary_monitor model_AB = [monA] /\
   MonitorModel.get_primary_monitor model_PQR = [monP; monQ]).
Proof.
  split; [|split; [|split]].
  - unfold spec_get_primary_monitor, MonitorModel.get_primary_monitor, MonitorModel.filter.
    apply filter_ext. intros m. now destruct (primary m).
  - reflexivity.
  - intros m. unfold MonitorModel.get_primary_monitor, MonitorModel.filter.
    apply filter_In.
  - repeat split.
Qed.

(** ** Virtual screen size *)

Lemma get_vscreen_size_loop_str (k : string) (ks : list string) (b : MonitorModel.bounds) :
  MonitorModel.get_vscreen_size_loop (map PyStr (k :: ks)) b =
  Raise (AttributeError "str" "position_x").
Proof. reflexivity. Qed.

(** The extent of the defect of [get_vscreen_size]: the loop runs over the
    mapping itself, that is its keys, where [filter], [get_monitor_order] and
    [get_from_position] run over its values.  The first key is a [str], and
    reading its [position_x] raises [AttributeError]; only the empty registry
    gets a size. *)
Lemma get_vscreen_size_keys (self : MonitorModel.t) :
  MonitorModel.get_vscreen_size self =
    match MonitorModel.keys self with
    | [] => Return (0, 0)
    | _ :: _ => Raise (AttributeError "str" "position_x")
    end.
Proof.
  unfold MonitorModel.get_vscreen_size, MonitorModel.keys.
  destruct (keys (MonitorModel.__monitors self)) as [|k ks].
  - reflexivity.
  - rewrite get_vscreen_size_loop_str. reflexivity.
Qed.

(** C2. A defect of the code: with the single monitor [A] registered,
    [get_vscreen_size()] returns no size, neither [(0, 0)] nor any other; it
    raises [AttributeError], so it does not return [(0, 0)] on every
    registry. *)
Lemma get_vscreen_size_not_zero :
  MonitorModel.get_vscreen_size model_A = Raise (AttributeError "str" "position_x") /\
  ~ (forall self, MonitorModel.get_vscreen_size self = Return (0, 0)).
Proof.
  split; [reflexivity|].
  intros H. specialize (H model_A). discriminate H.
Qed.

(** ** Monitor order *)

Section SortedFacts.
Context {A K : Type} (key : A -> K) (lt : K -> K -> bool).

Lemma insert_perm (x : A) (l : list A) : Permutation (x :: l) (insert key lt x l).
Proof.
  induction l as [|y r IH]; simpl.
  - apply Permutation_refl.
  - destruct (lt (key y) (key x)).
    + eapply perm_trans; [apply perm_swap|]. now apply perm_skip.
    + apply Permutation_refl.
Qed.

Lemma sorted_perm (l : list A) : Permutation l (sorted key lt l).
Proof.
  induction l as [|x r IH]; simpl.
  - apply perm_nil.
  - eapply perm_trans; [apply perm_skip, IH | apply insert_perm].
Qed.

(** The output is ascending for every order [le] that [lt] decides. *)
Variable le : K -> K -> Prop.
Hypothesis lt_le : forall a b, lt a b = true -> le a b.
Hypothesis nlt_le : forall a b, lt a b = false -> le b a.
Hypothesis le_trans : forall a b c, le a b -> le b c -> le a c.

Lemma insert_sorted (x : A) (l : list A) :
  StronglySorted (fun a b => le (key a) (key b)) l ->
  StronglySorted (fun a b => le (key a) (key b)) (insert key lt x l).
Proof.
  induction 1 as [|y r Hs IH Hall]; simpl.
  - repeat constructor.
  - destruct (lt (key y) (key x)) eqn:E.
    + constructor; [exact IH|].
      apply (Permutation_Forall (insert_perm x r)).
      constructor; [now apply lt_le | exact Hall].
    + apply nlt_le in E. constructor; [now constructor|].
      constructor; [exact E|].
      eapply Forall_impl; [|exact Hall]. intros a Ha. simpl in *. eauto.
Qed.

Lemma sorted_sorted (l : list A) :
  StronglySorted (fun a b => le (key a) (key b)) (sorted key lt l).
Proof.
  induction l as [|x r IH]; simpl; [constructor | now apply insert_sorted].
Qed.

(** Stability: elements picked by [p], none of which is below another, keep
    their relative order. *)
Variable p : A -> bool.
Hypothesis p_not_lt :
  forall a b, p a = true -> p b = true -> lt (key a) (key b) = false.

Lemma insert_filter (x : A) (l : list A) :
  List.filter p (insert key lt x l) = List.filter p (x :: l).
Proof.
  induction l as [|y r IH]; [reflexivity|].
  simpl insert. destruct (lt (key y) (key x)) eqn:E; [|reflexivity].
  change (List.filter p (y :: insert key lt x r))
    with (if p y then y :: List.filter p (insert key lt x r)
          else List.filter p (insert key lt x r)).
  rewrite IH. simpl.
  destruct (p y) eqn:Py, (p x) eqn:Px; try reflexivity.
  rewrite (p_not_lt y x Py Px) in E. discriminate E.
Qed.

Lemma sorted_filter (l : list A) :
  List.filter p (sorted key lt l) = List.filter p l.
Proof.
  induction l as [|x r IH]; [reflexivity|].
  simpl sorted. rewrite insert_filter. simpl. now rewrite IH.
Qed.

End SortedFacts.

Lemma tuple_lt_le (a b : Z * Z) : tuple_lt a b = true -> position_le a b.
Proof.
  unfold tuple_lt, position_le.
  rewrite orb_true_iff, andb_true_iff, !Z.ltb_lt, Z.eqb_eq. lia.
Qed.

Lemma tuple_nlt_le (a b : Z * Z) : tuple_lt a b = false -> position_le b a.
Proof.
  unfold tuple_lt, position_le.
  rewrite orb_false_iff, andb_false_iff, !Z.ltb_ge, Z.eqb_neq. lia.
Qed.

Lemma position_le_trans (a b c : Z * Z) :
  position_le a b -> position_le b c -> position_le a c.
Proof. unfold position_le. lia. Qed.

Lemma position_le_antisym (a b : Z * Z) :
  position_le a b -> position_le b a -> a = b.
Proof.
  unfold position_le. destruct a, b. simpl. intros H1 H2. f_equal; lia.
Qed.

Lemma tuple_eqb_eq (a b : Z * Z) : tuple_eqb a b = true <-> a = b.
Proof.
  unfold tuple_eqb. destruct a, b. simpl.
  rewrite andb_true_iff, !Z.eqb_eq. split; [intros [-> ->] | intros [= -> ->]]; auto.
Qed.

Lemma same_position_not_lt (pos : Z * Z) (a b : Monitor) :
  (fun m => tuple_eqb (position m) pos) a = true ->
  (fun m => tuple_eqb (position m) pos) b = true ->
  tuple_lt (position a) (position b) = false.
Proof.
  rewrite !tuple_eqb_eq. intros -> ->. unfold tuple_lt.
  rewrite Z.ltb_irrefl, Z.eqb_refl. simpl. apply Z.ltb_irrefl.
Qed.

Lemma at_position_cons (pos : Z * Z) (x : Monitor) (l : list Monitor) :
  at_position pos (x :: l) =
  if tuple_eqb (position x) pos then x :: at_position pos l else at_position pos l.
Proof. reflexivity. Qed.

Lemma at_position_head (x : Monitor) (l : list Monitor) :
  at_position (position x) (x :: l) = x :: at_position (position x) l.
Proof.
  rewrite at_position_cons.
  now replace (tuple_eqb (position x) (position x)) with true
    by (symmetry; now apply tuple_eqb_eq).
Qed.

Lemma at_position_In (pos : Z * Z) (m : Monitor) (l : list Monitor) :
  In m (at_position pos l) <-> In m l /\ position m = pos.
Proof.
  unfold at_position. rewrite filter_In, tuple_eqb_eq. tauto.
Qed.

(** Two ascending lists that agree position by position are equal: a stable
    sort has one possible output. *)
Lemma stable_sort_unique (l1 l2 : list Monitor) :
  ascending l1 -> ascending l2 ->
  (forall pos, at_position pos l1 = at_position pos l2) ->
  l1 = l2.
Proof.
  unfold ascending. intros H1. revert l2.
  induction H1 as [|x r1 Hs1 IH Hall1]; intros l2 H2 Hst.
  - destruct l2 as [|y r2]; [reflexivity|].
    specialize (Hst (position y)). rewrite at_position_head in Hst. discriminate Hst.
  - destruct H2 as [|y r2 Hs2 Hall2].
    + specialize (Hst (position x)). rewrite at_position_head in Hst. discriminate Hst.
    + assert (Hpos : position x = position y).
      { apply position_le_antisym.
        - assert (Hy : In y (at_position (position y) (x :: r1))).
          { rewrite Hst, at_position_head. now left. }
          apply at_position_In in Hy. destruct Hy as [[<-|Hy] _].
          + unfold position_le. lia.
          + rewrite Forall_forall in Hall1. now apply Hall1.
        - assert (Hx : In x (at_position (position x) (y :: r2))).
          { rewrite <- Hst, at_position_head. now left. }
          apply at_position_In in Hx. destruct Hx as [[<-|Hx] _].
          + unfold position_le. lia.
          + rewrite Forall_forall in Hall2. now apply Hall2. }
      assert (Hxy : x = y).
      { pose proof (Hst (position x)) as H. rewrite at_position_head in H.
        rewrite Hpos, at_position_head in H. now injection H. }
      subst y. f_equal. apply IH; [exact Hs2|].
      intros pos. specialize (Hst pos). rewrite !at_position_cons in Hst.
      destruct (tuple_eqb (position x) pos); [now injection Hst | exact Hst].
Qed.

(** C4. Whatever the registry, [get_monitor_order()] returns a permutation of
    the stored descriptors, ascending in the pair [(position_x, position_y)];
    the sort is stable: the descriptors at one position come out in the order
    they are stored in, the insertion order.  Monitors registered at (0,0),
    (100,0), (0,50) come out as (0,0), (0,50), (100,0), and two monitors at
    (0,0) come out in the order they were added in, either way. *)
Theorem get_monitor_order_sorted_stable (self : MonitorModel.t) :
  Permutation (MonitorModel.__iter__ self) (MonitorModel.get_monitor_order self)
  /\
  ascending (MonitorModel.get_monitor_order self)
  /\
  (forall pos,
     at_position pos (MonitorModel.get_monitor_order self) =
     at_position pos (MonitorModel.__iter__ self))
  /\
  (MonitorModel.get_monitor_order model_PQR = [monP; monR; monQ] /\
   MonitorModel.get_monitor_order
     (run [Add monQ; Add monP; Add monS] MonitorModel.__init__) = [monP; monS; monQ] /\
   MonitorModel.get_monitor_order
     (run [Add monQ; Add monS; Add monP] MonitorModel.__init__) = [monS; monP; monQ]).
Proof.
  unfold MonitorModel.get_monitor_order, MonitorModel.__iter__.
  split; [|split; [|split]].
  - apply sorted_perm.
  - apply (sorted_sorted position tuple_lt position_le).
    + apply tuple_lt_le.
    + apply tuple_nlt_le.
    + apply position_le_trans.
  - intros pos. apply (sorted_filter position tuple_lt).
    apply same_position_not_lt.
  - repeat split.
Qed.

(** * Further properties of the model *)

(** ** Calls: atomicity, bookkeeping, frame *)

Lemma lookup_contains {V} (k : string) (d : PyDict.t V) :
  contains k d = match lookup k d with Some _ => true | None => false end.
Proof. reflexivity. Qed.

Lemma lookup_delete_other {V} (k k' : string) (d : PyDict.t V) :
  k' <> k -> lookup k' (delete k d) = lookup k' d.
Proof.
  intros Hne. induction d as [|[k0 v0] r IH]; simpl; [reflexivity|].
  destruct (String.eqb_spec k0 k) as [->|Hk].
  - destruct (String.eqb_spec k k'); congruence.
  - simpl. now rewrite IH.
Qed.

Lemma lookup_delete_same {V} (k : string) (d : PyDict.t V) :
  wf d -> lookup k (delete k d) = None.
Proof.
  intros Hwf. apply lookup_None.
  destruct (lookup k d) as [v|] eqn:E.
  - destruct (delete_split _ _ _ E) as (l1 & l2 & Hd & -> & _).
    rewrite Hd in Hwf. now apply wf_app_inv in Hwf.
  - apply lookup_None in E. now rewrite delete_absent.
Qed.

Lemma length_delete {V} (k : string) (v : V) (d : PyDict.t V) :
  lookup k d = Some v -> S (List.length (delete k d)) = List.length d.
Proof.
  intros E. destruct (delete_split _ _ _ E) as (l1 & l2 & -> & -> & _).
  rewrite !length_app. simpl. lia.
Qed.

Lemma add_monitors (self : MonitorModel.t) (d : Monitor) :
  MonitorModel.__monitors (snd (MonitorModel.add d self)) =
  if contains (device_name d) (MonitorModel.__monitors self)
  then MonitorModel.__monitors self
  else MonitorModel.__monitors self ++ [(device_name d, d)].
Proof.
  destruct (contains (device_name d) (MonitorModel.__monitors self)) eqn:E.
  - apply contains_true in E. now rewrite add_present.
  - apply contains_false in E. now rewrite add_fresh.
Qed.

(** X1. A call that raises leaves the model, mapping and trace, exactly as it
    was; a call that returns appends exactly one notification to the trace,
    the one that reports the call.  This holds for [add], [remove], [pop] and
    [reset] on every model. *)
Theorem call_raises_or_notifies_once (c : call) (self : MonitorModel.t) :
  match outcome c self with
  | Raise _ => after c self = self
  | Return _ =>
      exists n, announces c n /\
        MonitorModel.emitted (after c self) = MonitorModel.emitted self ++ [n]
  end.
Proof.
  destruct c as [d|d|n|]; simpl.
  - destruct (In_dec_key self (device_name d)) as [H|H].
    + now rewrite add_present.
    + rewrite add_fresh by exact H. simpl. eexists. split; [|reflexivity].
      simpl. auto.
  - rewrite remove_pop.
    destruct (lookup (device_name d) (MonitorModel.__monitors self)) as [m|] eqn:E.
    + rewrite (pop_present _ _ _ E). simpl. eexists. split; [|reflexivity].
      reflexivity.
    + apply lookup_None in E. now rewrite pop_absent.
  - destruct (lookup n (MonitorModel.__monitors self)) as [m|] eqn:E.
    + rewrite (pop_present _ _ _ E). simpl. eexists. split; [|reflexivity].
      reflexivity.
    + apply lookup_None in E. now rewrite pop_absent.
  - exists ModelReset. split; [exact I | reflexivity].
Qed.

(** X2. The number of monitors after a call, whether it returned or raised:
    [add(d)] adds one unless the name was present, [pop(n)] and [remove(d)]
    take one away unless the name was absent, [reset()] leaves none. *)
Theorem len_after_call (self : MonitorModel.t) (d : Monitor) (n : string) :
  MonitorModel.__len__ (after (Add d) self) =
    MonitorModel.__len__ self
    + (if MonitorModel.__contains__ self (device_name d) then 0 else 1)
  /\
  MonitorModel.__len__ (after (Pop n) self) =
    MonitorModel.__len__ self - (if MonitorModel.__contains__ self n then 1 else 0)
  /\
  MonitorModel.__len__ (after (Remove d) self) =
    MonitorModel.__len__ self
    - (if MonitorModel.__contains__ self (device_name d) then 1 else 0)
  /\
  MonitorModel.__len__ (after Reset self) = 0.
Proof.
  assert (Hdel : forall k,
    Z.of_nat (List.length (delete k (MonitorModel.__monitors self))) =
    Z.of_nat (List.length (MonitorModel.__monitors self))
    - (if contains k (MonitorModel.__monitors self) then 1 else 0)).
  { intros k. rewrite lookup_contains.
    destruct (lookup k (MonitorModel.__monitors self)) as [m|] eqn:E.
    - apply length_delete in E. lia.
    - apply lookup_None in E. rewrite delete_absent by exact E. lia. }
  unfold MonitorModel.__len__, MonitorModel.__contains__, len.
  split; [|split; [|split]]; simpl after.
  - rewrite add_monitors.
    destruct (contains (device_name d) (MonitorModel.__monitors self)).
    + lia.
    + rewrite length_app. simpl. lia.
  - rewrite pop_monitors. apply Hdel.
  - rewrite remove_monitors. apply Hdel.
  - reflexivity.
Qed.

(** X3. Frame: [add], [pop] and [remove] made with one device name leave
    every other name as it was: [get] of another name gives the same answer
    after the call as before, whether the call returned or raised. *)
Theorem get_other_name_unchanged (self : MonitorModel.t) (d : Monitor)
    (n k : string) (default : pyobj) :
  (k <> device_name d ->
     MonitorModel.get (after (Add d) self) k default = MonitorModel.get self k default /\
     MonitorModel.get (after (Remove d) self) k default = MonitorModel.get self k default)
  /\
  (k <> n ->
     MonitorModel.get (after (Pop n) self) k default = MonitorModel.get self k default).
Proof.
  unfold MonitorModel.get, dict_get. split.
  - intros Hk. split; simpl after.
    + rewrite add_monitors.
      destruct (contains (device_name d) (MonitorModel.__monitors self)); [reflexivity|].
      now rewrite lookup_app_other.
    + rewrite remove_monitors. now rewrite lookup_delete_other.
  - intros Hk. simpl after. rewrite pop_monitors. now rewrite lookup_delete_other.
Qed.

Lemma get_other_name_unchanged_witness :
  (MonitorModel.get (after (Add monA') model_AB) "B" PyNone = PyMonitor monB /\
   MonitorModel.get (after (Remove monA') model_AB) "B" PyNone = PyMonitor monB)
  /\ MonitorModel.get (after (Pop "B") model_AB) "A" PyNone = PyMonitor monA.
Proof.
  split.
  - refine (proj1 (get_other_name_unchanged model_AB monA' "B" "B" PyNone) _).
    simpl. discriminate.
  - refine (proj2 (get_other_name_unchanged model_AB monA' "B" "A" PyNone) _).
    discriminate.
Defined.

(** X4. Membership of the name a call was made with: after [add(d)], returned
    or raised, [d.device_name] is in the model; after [pop(n)], returned or
    raised, [n] is not, and a second [pop(n)] raises [KeyError(n)] and changes
    nothing. *)
Theorem contains_after_call (self : MonitorModel.t) (d : Monitor) (n : string) :
  wf (MonitorModel.__monitors self) ->
  MonitorModel.__contains__ (after (Add d) self) (device_name d) = true
  /\
  MonitorModel.__contains__ (after (Pop n) self) n = false
  /\
  MonitorModel.pop n (after (Pop n) self) = (Raise (KeyError n), after (Pop n) self).
Proof.
  intros Hwf.
  assert (Hn : lookup n (MonitorModel.__monitors (after (Pop n) self)) = None).
  { simpl after. rewrite pop_monitors. now apply lookup_delete_same. }
  unfold MonitorModel.__contains__. split; [|split].
  - simpl after. rewrite add_monitors, lookup_contains.
    destruct (contains (device_name d) (MonitorModel.__monitors self)) eqn:E.
    + rewrite lookup_contains in E. exact E.
    + apply contains_false in E. now rewrite lookup_app_fresh.
  - now rewrite lookup_contains, Hn.
  - apply pop_absent. now apply lookup_None.
Qed.

Lemma contains_after_call_witness :
  MonitorModel.__contains__ (after (Add monA') model_AB) "A" = true /\
  MonitorModel.__contains__ (after (Pop "B") model_AB) "B" = false /\
  MonitorModel.pop "B" (after (Pop "B") model_AB) =
    (Raise (KeyError "B"), after (Pop "B") model_AB).
Proof.
  refine (contains_after_call model_AB monA' "B" _).
  simpl. repeat constructor; simpl; intuition discriminate.
Defined.

(** ** Observers *)

Lemma replay_snoc (trace : list Notification) (n : Notification) :
  replay (trace ++ [n]) = observe (replay trace) n.
Proof. unfold replay. now rewrite fold_left_app. Qed.

Lemma after_in_step (c : call) (self : MonitorModel.t) :
  in_step self -> in_step (after c self).
Proof.
  unfold in_step. intros H. destruct c as [d|d|n|]; simpl after.
  - destruct (In_dec_key self (device_name d)) as [Hin|Hnin].
    + now rewrite add_present.
    + rewrite add_fresh by exact Hnin. simpl.
      rewrite replay_snoc, H. simpl. now apply setitem_fresh.
  - rewrite remove_pop.
    destruct (lookup (device_name d) (MonitorModel.__monitors self)) as [m|] eqn:E.
    + rewrite (pop_present _ _ _ E). simpl. now rewrite replay_snoc, H.
    + apply lookup_None in E. now rewrite pop_absent.
  - destruct (lookup n (MonitorModel.__monitors self)) as [m|] eqn:E.
    + rewrite (pop_present _ _ _ E). simpl. now rewrite replay_snoc, H.
    + apply lookup_None in E. now rewrite pop_absent.
  - simpl. now rewrite replay_snoc.
Qed.

(** X5. The notifications carry the whole state: an observer that starts with
    an empty dict and, for each notification in turn, stores the value of an
    [ItemAdded] under its key, deletes the key of an [ItemRemoved] and clears
    on [ModelReset], holds the very mapping of the model, in the same order,
    after any sequence of calls, failed ones included. *)
Theorem observer_mirrors_model (self : MonitorModel.t) (cs : list call) :
  in_step self -> in_step (run cs self).
Proof.
  revert self. unfold run.
  induction cs as [|c cs IH]; intros self H; simpl; [exact H|].
  apply IH. now apply after_in_step.
Qed.

Lemma observer_mirrors_model_witness :
  in_step MonitorModel.__init__ /\
  in_step (run [Add monA; Add monB; Add monA'; Pop "A"; Pop "C"; Add monA'; Reset;
                Add monP; Remove monQ]
               MonitorModel.__init__).
Proof.
  assert (H0 : in_step MonitorModel.__init__) by reflexivity.
  split; [exact H0|].
  apply (observer_mirrors_model MonitorModel.__init__ _ H0).
Defined.

(** ** Calls in sequence *)

(** X6. [add(d)] of a new name followed by [pop(d.device_name)] gives back the
    mapping there was before, entries and order, and leaves the two
    notifications [ItemAdded] and [ItemRemoved] of [d] in the trace. *)
Theorem add_then_pop_restores (self : MonitorModel.t) (d : Monitor) :
  ~ In (device_name d) (MonitorModel.keys self) ->
  MonitorModel.__monitors (run [Add d; Pop (device_name d)] self) =
    MonitorModel.__monitors self
  /\
  MonitorModel.emitted (run [Add d; Pop (device_name d)] self) =
    MonitorModel.emitted self
    ++ [ItemAdded (device_name d) d; ItemRemoved (device_name d) d].
Proof.
  intros H. unfold run. simpl fold_left. simpl after.
  rewrite add_fresh by exact H. simpl snd.
  rewrite (pop_present _ _ d) by (simpl; now apply lookup_app_fresh).
  simpl. split.
  - now apply delete_app_fresh.
  - now rewrite <- app_assoc.
Qed.

Lemma add_then_pop_restores_witness :
  MonitorModel.__monitors (run [Add monR; Pop "R"] model_AB) =
    MonitorModel.__monitors model_AB
  /\
  MonitorModel.emitted (run [Add monR; Pop "R"] model_AB) =
    MonitorModel.emitted model_AB ++ [ItemAdded "R" monR; ItemRemoved "R" monR].
Proof.
  refine (add_then_pop_restores model_AB monR _).
  simpl. intuition discriminate.
Defined.

(** X7. [pop(n)] of a stored monitor followed by [add] of that monitor puts
    it last in the iteration order, behind the monitors that were stored after
    it.  In a model whose keys are the device names of their monitors, the
    iteration order is then the one there was before exactly when no monitor
    was stored after it. *)
Theorem pop_then_add_moves_last (self : MonitorModel.t) (m : Monitor) :
  wf (MonitorModel.__monitors self) ->
  In (device_name m, m) (MonitorModel.items self) ->
  exists l1 l2,
    MonitorModel.__iter__ self = l1 ++ m :: l2 /\
    MonitorModel.__iter__ (run [Pop (device_name m); Add m] self) = l1 ++ l2 ++ [m] /\
    (keyed_by_name self ->
       (MonitorModel.__iter__ (run [Pop (device_name m); Add m] self) =
        MonitorModel.__iter__ self <-> l2 = [])).
Proof.
  intros Hwf Hin. unfold MonitorModel.items, items in Hin.
  apply In_lookup in Hin; [|exact Hwf].
  destruct (delete_split _ _ _ Hin) as (l1 & l2 & Hd & Hdel & _).
  exists (values l1), (values l2).
  assert (Hbefore : MonitorModel.__iter__ self = values l1 ++ m :: values l2).
  { unfold MonitorModel.__iter__. rewrite Hd. unfold values. now rewrite map_app. }
  assert (Hafter : MonitorModel.__iter__ (run [Pop (device_name m); Add m] self) =
                   values l1 ++ values l2 ++ [m]).
  { unfold MonitorModel.__iter__, run. simpl fold_left. simpl after.
    rewrite (pop_present _ _ _ Hin). simpl snd.
    rewrite add_fresh.
    - simpl. rewrite Hdel. unfold values. now rewrite !map_app, <- app_assoc.
    - rewrite keys_eq. simpl. rewrite Hdel.
      rewrite Hd in Hwf. now apply wf_app_inv in Hwf. }
  split; [exact Hbefore|]. split; [exact Hafter|].
  intros Hk. rewrite Hafter, Hbefore. split.
  - intros E. apply app_inv_head in E.
    destruct l2 as [|[k v] r]; [reflexivity|]. exfalso.
    simpl in E. injection E as Ev _. subst v.
    assert (Hkm : device_name m = k).
    { apply Hk. unfold MonitorModel.items, items. rewrite Hd.
      apply in_or_app. right. right. now left. }
    rewrite Hd in Hwf. unfold wf, keys in Hwf. rewrite map_app in Hwf. simpl in Hwf.
    apply NoDup_remove_2 in Hwf. apply Hwf.
    apply in_or_app. right. left. now symmetry.
  - intros El. apply (f_equal (@List.length _)) in El. 
    destruct l2; [reflexivity | discriminate El].
Qed.

Lemma pop_then_add_moves_last_witness :
  exists l1 l2,
    MonitorModel.__iter__ model_PQR = l1 ++ monP :: l2 /\
    MonitorModel.__iter__ (run [Pop "P"; Add monP] model_PQR) = l1 ++ l2 ++ [monP] /\
    (keyed_by_name model_PQR ->
       (MonitorModel.__iter__ (run [Pop "P"; Add monP] model_PQR) =
        MonitorModel.__iter__ model_PQR <-> l2 = [])).
Proof.
  refine (pop_then_add_moves_last model_PQR monP _ _).
  - simpl. repeat constructor; simpl; intuition discriminate.
  - simpl. now left.
Defined.

(** ** Reachable models *)

Lemma keyed_keys (self : MonitorModel.t) :
  keyed_by_name self ->
  MonitorModel.keys self = map device_name (MonitorModel.__iter__ self).
Proof.
  unfold keyed_by_name, MonitorModel.items, items, MonitorModel.keys,
    MonitorModel.__iter__, keys, values.
  induction (MonitorModel.__monitors self) as [|[k m] r IH]; intros H; simpl.
  - reflexivity.
  - f_equal.
    + symmetry. apply H. now left.
    + apply IH. intros k' m' Hin. apply H. now right.
Qed.

Lemma run_keyed_by_name (cs : list call) (self : MonitorModel.t) :
  keyed_by_name self -> keyed_by_name (run cs self).
Proof.
  revert self. unfold run.
  induction cs as [|c cs IH]; intros self H; simpl; [exact H|].
  apply IH. now apply after_keyed_by_name.
Qed.

(** X8. In every model reached from [__init__] by calls of [add], [remove],
    [pop] and [reset], no two stored monitors have the same device name, and
    [keys()] lists the device names of the monitors in iteration order. *)
Theorem stored_names_distinct (cs : list call) :
  NoDup (map device_name (MonitorModel.__iter__ (run cs MonitorModel.__init__)))
  /\
  MonitorModel.keys (run cs MonitorModel.__init__) =
    map device_name (MonitorModel.__iter__ (run cs MonitorModel.__init__)).
Proof.
  assert (Hk : keyed_by_name (run cs MonitorModel.__init__))
    by (apply run_keyed_by_name; intros k m []).
  assert (Hwf : wf (MonitorModel.__monitors (run cs MonitorModel.__init__)))
    by (apply run_wf; constructor).
  apply keyed_keys in Hk. split; [|exact Hk].
  rewrite <- Hk. exact Hwf.
Qed.

(** ** Queries *)

Lemma filter_split_perm {A} (p : A -> bool) (l : list A) :
  Permutation l (List.filter p l ++ List.filter (fun a => negb (p a)) l).
Proof.
  induction l as [|x r IH]; simpl; [constructor|].
  destruct (p x); simpl.
  - now apply perm_skip.
  - now apply Permutation_cons_app.
Qed.

(** X9. [filter] loses and invents nothing: the monitors it yields for an
    operation and the ones it yields for the negated operation are, together,
    the stored monitors, each as often as it is stored; every monitor yielded
    satisfies the operation. *)
Theorem filter_partitions (self : MonitorModel.t) (operation : Monitor -> bool) :
  Permutation (MonitorModel.__iter__ self)
    (MonitorModel.filter self operation
     ++ MonitorModel.filter self (fun monitor => negb (operation monitor)))
  /\
  Forall (fun m => operation m = true) (MonitorModel.filter self operation)
  /\
  Z.of_nat (List.length (MonitorModel.filter self operation))
  + Z.of_nat (List.length
                (MonitorModel.filter self (fun monitor => negb (operation monitor))))
  = MonitorModel.__len__ self.
Proof.
  unfold MonitorModel.filter, MonitorModel.__iter__.
  pose proof (filter_split_perm operation (values (MonitorModel.__monitors self))) as P.
  split; [exact P|]. split.
  - apply Forall_forall. intros m H. now apply filter_In in H.
  - apply Permutation_length in P. rewrite length_app in P.
    unfold MonitorModel.__len__, len, values in *. rewrite length_map in P. lia.
Qed.

Lemma order_ascending (l : list Monitor) :
  ascending (sorted position tuple_lt l).
Proof.
  apply (sorted_sorted position tuple_lt position_le).
  - apply tuple_lt_le.
  - apply tuple_nlt_le.
  - apply position_le_trans.
Qed.

Lemma order_at_position (pos : Z * Z) (l : list Monitor) :
  at_position pos (sorted position tuple_lt l) = at_position pos l.
Proof.
  apply (sorted_filter position tuple_lt). apply same_position_not_lt.
Qed.


(** X11. When the monitors are stored in ascending order of position already,
    [get_monitor_order()] is the iteration order. *)
Theorem monitor_order_of_ascending (self : MonitorModel.t) :
  ascending (MonitorModel.__iter__ self) ->
  MonitorModel.get_monitor_order self = MonitorModel.__iter__ self.
Proof.
  intros H. unfold MonitorModel.get_monitor_order.
  apply stable_sort_unique.
  - apply order_ascending.
  - exact H.
  - intros pos. apply order_at_position.
Qed.

Lemma monitor_order_of_ascending_witness :
  MonitorModel.get_monitor_order model_PRQ = MonitorModel.__iter__ model_PRQ.
Proof.
  refine (monitor_order_of_ascending model_PRQ _).
  unfold ascending. simpl.
  repeat constructor; unfold position_le; simpl; lia.
Defined.

Lemma at_position_perm (pos : Z * Z) (l1 l2 : list Monitor) :
  Permutation l1 l2 -> Permutation (at_position pos l1) (at_position pos l2).
Proof.
  induction 1 as [|x l l' _ IH|x y l|l l' l'' _ IH1 _ IH2].
  - constructor.
  - rewrite !at_position_cons. destruct (tuple_eqb (position x) pos); auto.
  - rewrite !at_position_cons.
    destruct (tuple_eqb (position x) pos), (tuple_eqb (position y) pos);
      try apply Permutation_refl. apply perm_swap.
  - eapply perm_trans; eauto.
Qed.

Lemma at_position_single (pos : Z * Z) (l : list Monitor) :
  NoDup (map position l) -> (List.length (at_position pos l) <= 1)%nat.
Proof.
  induction l as [|x r IH]; intros H; [simpl; lia|].
  simpl in H. inversion H as [|? ? Hnin Hnd]; subst.
  rewrite at_position_cons. destruct (tuple_eqb (position x) pos) eqn:E.
  - apply tuple_eqb_eq in E. subst pos.
    destruct (at_position (position x) r) as [|y r'] eqn:Er; [simpl; lia|].
    exfalso. apply Hnin.
    assert (Hy : In y (at_position (position x) r)) by (rewrite Er; now left).
    apply at_position_In in Hy. destruct Hy as [Hy <-]. now apply in_map.
  - now apply IH.
Qed.

(** X12. When no two stored monitors have the same position, the insertion
    order has no influence on [get_monitor_order()]: two models that store the
    same monitors give the same list. *)
Theorem monitor_order_insertion_independent (s1 s2 : MonitorModel.t) :
  Permutation (MonitorModel.__iter__ s1) (MonitorModel.__iter__ s2) ->
  NoDup (map position (MonitorModel.__iter__ s1)) ->
  MonitorModel.get_monitor_order s1 = MonitorModel.get_monitor_order s2.
Proof.
  intros P Hnd. unfold MonitorModel.get_monitor_order, MonitorModel.__iter__ in *.
  apply stable_sort_unique; try apply order_ascending.
  intros pos. rewrite !order_at_position.
  pose proof (at_position_perm pos _ _ P) as Pp.
  pose proof (at_position_single pos _ Hnd) as Hlen.
  destruct (at_position pos (values (MonitorModel.__monitors s1))) as [|a [|b r]].
  - symmetry. apply Permutation_nil. exact Pp.
  - symmetry. apply Permutation_length_1_inv. exact Pp.
  - simpl in Hlen. lia.
Qed.

Lemma monitor_order_insertion_independent_witness :
  MonitorModel.get_monitor_order model_PQR = MonitorModel.get_monitor_order model_QRP.
Proof.
  refine (monitor_order_insertion_independent model_PQR model_QRP _ _).
  - change (Permutation [monP; monQ; monR] ([monQ; monR] ++ monP :: [])).
    apply Permutation_cons_app. simpl. apply Permutation_refl.
  - change (NoDup [(0, 0); (100, 0); (0, 50)]).
    repeat constructor; simpl; intuition discriminate.
Defined.

Lemma In_values_items {V} (v : V) (d : PyDict.t V) :
  In v (values d) -> exists k, In (k, v) d.
Proof.
  unfold values. intros H. apply in_map_iff in H.
  destruct H as ([k v'] & E & H). simpl in E. subst v'. eauto.
Qed.

(** X13. What [get_from_position] returns is a monitor of the model: it holds
    the point, its width and height are not negative, and, in a model whose
    keys are the device names of their monitors, [get] of its device name
    returns that same monitor. *)
Theorem position_lookup_is_stored (self : MonitorModel.t) (x y : Z)
    (m : Monitor) (default : pyobj) :
  wf (MonitorModel.__monitors self) ->
  keyed_by_name self ->
  MonitorModel.get_from_position self x y = Return m ->
  MonitorModel.get self (device_name m) default = PyMonitor m /\
  in_rect m x y /\ 0 <= screen_width m /\ 0 <= screen_height m.
Proof.
  intros Hwf Hk H. unfold MonitorModel.get_from_position in H.
  apply get_from_position_loop_Return in H.
  destruct H as (l1 & l2 & Hl & Hin & _).
  split; [|split; [exact Hin | unfold in_rect in Hin; lia]].
  assert (Hm : In m (values (MonitorModel.__monitors self)))
    by (rewrite Hl; apply in_or_app; right; now left).
  apply In_values_items in Hm. destruct Hm as [k Hm].
  pose proof (Hk k m Hm) as <-.
  unfold MonitorModel.get, dict_get. now rewrite (In_lookup _ _ _ Hwf Hm).
Qed.

Lemma position_lookup_is_stored_witness :
  MonitorModel.get model_AB (device_name monB) PyNone = PyMonitor monB /\
  in_rect monB 150 50 /\ 0 <= screen_width monB /\ 0 <= screen_height monB.
Proof.
  refine (position_lookup_is_stored model_AB 150 50 monB PyNone _ _ _).
  - simpl. repeat constructor; simpl; intuition discriminate.
  - intros k m [H|[H|[]]]; injection H as <- <-; reflexivity.
  - reflexivity.
Defined.

(** X14. Which monitor a point hits depends on the insertion order only
    through overlaps: when at most one stored monitor holds the point, two
    models that store the same monitors give the same answer, the same
    monitor or the same [LookupError]. *)
Theorem position_lookup_insertion_independent (s1 s2 : MonitorModel.t) (x y : Z) :
  Permutation (MonitorModel.__iter__ s1) (MonitorModel.__iter__ s2) ->
  only_match s1 x y ->
  MonitorModel.get_from_position s1 x y = MonitorModel.get_from_position s2 x y.
Proof.
  unfold only_match, MonitorModel.get_from_position, MonitorModel.__iter__.
  intros P Hone.
  destruct (MonitorModel.get_from_position_loop
              (values (MonitorModel.__monitors s1)) x y) as [m|e] eqn:E1;
  destruct (MonitorModel.get_from_position_loop
              (values (MonitorModel.__monitors s2)) x y) as [m'|e'] eqn:E2.
  - apply get_from_position_loop_Return in E1, E2.
    destruct E1 as (a1 & b1 & H1 & R1 & _), E2 as (a2 & b2 & H2 & R2 & _).
    f_equal. apply Hone; try assumption.
    + rewrite H1. apply in_or_app. right. now left.
    + apply (Permutation_in _ (Permutation_sym P)).
      rewrite H2. apply in_or_app. right. now left.
  - apply get_from_position_loop_Return in E1.
    apply get_from_position_loop_Raise in E2.
    destruct E1 as (a1 & b1 & H1 & R1 & _), E2 as [_ N2].
    exfalso. apply (N2 m); [|exact R1].
    apply (Permutation_in _ P). rewrite H1. apply in_or_app. right. now left.
  - apply get_from_position_loop_Raise in E1.
    apply get_from_position_loop_Return in E2.
    destruct E1 as [_ N1], E2 as (a2 & b2 & H2 & R2 & _).
    exfalso. apply (N1 m'); [|exact R2].
    apply (Permutation_in _ (Permutation_sym P)).
    rewrite H2. apply in_or_app. right. now left.
  - apply get_from_position_loop_Raise in E1, E2.
    destruct E1 as [-> _], E2 as [-> _]. reflexivity.
Qed.

Lemma position_lookup_insertion_independent_witness :
  MonitorModel.get_from_position model_PQR 150 25 =
  MonitorModel.get_from_position model_QRP 150 25.
Proof.
  refine (position_lookup_insertion_independent model_PQR model_QRP 150 25 _ _).
  - change (Permutation [monP; monQ; monR] ([monQ; monR] ++ monP :: [])).
    apply Permutation_cons_app. simpl. apply Permutation_refl.
  - intros m m' Hm Hm' R R'.
    change (In m [monP; monQ; monR]) in Hm. change (In m' [monP; monQ; monR]) in Hm'.
    simpl in Hm, Hm'.
    destruct Hm as [<-|[<-|[<-|[]]]]; destruct Hm' as [<-|[<-|[<-|[]]]];
      unfold in_rect in R, R'; simpl in R, R'; try reflexivity; lia.
Defined.

Lemma get_from_position_loop_app (l : list Monitor) (d : Monitor) (x y : Z) :
  MonitorModel.get_from_position_loop (l ++ [d]) x y =
  match MonitorModel.get_from_position_loop l x y with
  | Return m => Return m
  | Raise e => if MonitorModel.includes d x y then Return d else Raise e
  end.
Proof.
  induction l as [|a r IH]; simpl.
  - reflexivity.
  - destruct (MonitorModel.includes a x y); [reflexivity | exact IH].
Qed.

(** X15. Monitors already stored take precedence over a monitor added later:
    after [add(d)] of a new name, a point that hit a monitor before still hits
    that monitor, also when [d] holds the point; a point that hit none hits
    [d] when [d] holds it, and still raises [LookupError] when not. *)
Theorem position_lookup_after_add (self : MonitorModel.t) (d : Monitor) (x y : Z) :
  ~ In (device_name d) (MonitorModel.keys self) ->
  MonitorModel.get_from_position (after (Add d) self) x y =
  match MonitorModel.get_from_position self x y with
  | Return m => Return m
  | Raise e => if MonitorModel.includes d x y then Return d else Raise e
  end.
Proof.
  intros H. unfold MonitorModel.get_from_position. simpl after.
  rewrite add_fresh by exact H. simpl. unfold values. rewrite map_app. simpl.
  apply get_from_position_loop_app.
Qed.

Lemma position_lookup_after_add_witness :
  MonitorModel.get_from_position (after (Add monS) model_PQR) 10 10 = Return monP /\
  MonitorModel.get_from_position (after (Add monB) model_A) 150 50 = Return monB.
Proof.
  split.
  - refine (position_lookup_after_add model_PQR monS 10 10 _).
    simpl. intuition discriminate.
  - refine (position_lookup_after_add model_A monB 150 50 _).
    simpl. intuition discriminate.
Defined.

Lemma get_from_position_loop_drop (a b : list Monitor) (v m : Monitor) (x y : Z) :
  v <> m ->
  MonitorModel.get_from_position_loop (a ++ v :: b) x y = Return m ->
  MonitorModel.get_from_position_loop (a ++ b) x y = Return m.
Proof.
  intros Hne. induction a as [|c a IH]; simpl.
  - destruct (MonitorModel.includes v x y); [|auto].
    intros [= E]. contradiction.
  - destruct (MonitorModel.includes c x y); auto.
Qed.

(** X16. Taking another monitor away does not change which monitor a point
    hits: when [get_from_position(x, y)] returns [m] and [n] is not the device
    name of [m], it returns [m] after [pop(n)] too, whether [pop(n)] returned
    or raised. *)
Theorem position_lookup_after_pop (self : MonitorModel.t) (n : string)
    (x y : Z) (m : Monitor) :
  keyed_by_name self ->
  n <> device_name m ->
  MonitorModel.get_from_position self x y = Return m ->
  MonitorModel.get_from_position (after (Pop n) self) x y = Return m.
Proof.
  intros Hk Hn H. unfold MonitorModel.get_from_position in *. simpl after.
  rewrite pop_monitors.
  destruct (lookup n (MonitorModel.__monitors self)) as [v|] eqn:E.
  - destruct (delete_split _ _ _ E) as (l1 & l2 & Hd & Hdel & _).
    assert (Hv : v <> m).
    { intros ->. apply Hn. symmetry. apply Hk.
      unfold MonitorModel.items, items. now apply lookup_Some_In. }
    rewrite Hdel. rewrite Hd in H. unfold values in *.
    rewrite map_app in *. simpl in H.
    now apply (get_from_position_loop_drop _ _ v).
  - apply lookup_None in E. now rewrite delete_absent.
Qed.

Lemma position_lookup_after_pop_witness :
  MonitorModel.get_from_position (after (Pop "A") model_AB) 150 50 = Return monB.
Proof.
  refine (position_lookup_after_pop model_AB "A" 150 50 monB _ _ _).
  - intros k m [H|[H|[]]]; injection H as <- <-; reflexivity.
  - discriminate.
  - reflexivity.
Defined.

(** X17. A monitor added under a new name is yielded last: after [add(d)],
    [filter(operation)] yields what it yielded before, followed by [d] when
    the operation holds of [d]; so [get_primary_monitor()] gains [d] exactly
    when [d.primary] is set, whatever primary monitors are stored already. *)
Theorem filter_after_add (self : MonitorModel.t) (d : Monitor)
    (operation : Monitor -> bool) :
  ~ In (device_name d) (MonitorModel.keys self) ->
  MonitorModel.filter (after (Add d) self) operation =
    MonitorModel.filter self operation ++ (if operation d then [d] else [])
  /\
  MonitorModel.get_primary_monitor (after (Add d) self) =
    MonitorModel.get_primary_monitor self ++ (if primary d then [d] else []).
Proof.
  intros H.
  assert (G : forall op, MonitorModel.filter (after (Add d) self) op =
                         MonitorModel.filter self op ++ (if op d then [d] else [])).
  { intros op. unfold MonitorModel.filter. simpl after.
    rewrite add_fresh by exact H. simpl. unfold values.
    rewrite map_app, filter_app. simpl. now destruct (op d). }
  split; [apply G|]. unfold MonitorModel.get_primary_monitor. apply G.
Qed.

Lemma filter_after_add_witness :
  MonitorModel.filter (after (Add monQ) model_A) primary = [monA; monQ] /\
  MonitorModel.get_primary_monitor (after (Add monQ) model_A) = [monA; monQ].
Proof.
  refine (filter_after_add model_A monQ primary _).
  simpl. intuition discriminate.
Defined.

(** X18. The empty model: when [len] is 0, [get_from_position] raises
    [LookupError] at every point, [get_monitor_order()] and every [filter] are
    empty, [get] returns the default and [pop] raises [KeyError] for every
    name, and [add] returns for every monitor. *)
Theorem empty_model_queries (self : MonitorModel.t) :
  MonitorModel.__len__ self = 0 ->
  (forall x y, MonitorModel.get_from_position self x y =
     Raise (LookupError "Requested position is outside of visible virtual screen area"))
  /\ MonitorModel.get_monitor_order self = []
  /\ (forall operation, MonitorModel.filter self operation = [])
  /\ (forall k default, MonitorModel.get self k default = default)
  /\ (forall n, MonitorModel.pop n self = (Raise (KeyError n), self))
  /\ (forall d, outcome (Add d) self = Return tt).
Proof.
  destruct self as [d tr]. unfold MonitorModel.__len__, len. simpl.
  destruct d as [|e r]; [|simpl; lia]. intros _.
  repeat split.
Qed.

Lemma empty_model_queries_witness :
  (forall x y, MonitorModel.get_from_position (after Reset model_AB) x y =
     Raise (LookupError "Requested position is outside of visible virtual screen area"))
  /\ MonitorModel.get_monitor_order (after Reset model_AB) = []
  /\ (forall operation, MonitorModel.filter (after Reset model_AB) operation = [])
  /\ (forall k default, MonitorModel.get (after Reset model_AB) k default = default)
  /\ (forall n, MonitorModel.pop n (after Reset model_AB) =
                (Raise (KeyError n), after Reset model_AB))
  /\ (forall d, outcome (Add d) (after Reset model_AB) = Return tt).
Proof.
  refine (empty_model_queries (after Reset model_AB) _). reflexivity.
Defined.
